(** * BookCovers: the geometric core of [stickworks.py] and [bookdemo.py]

    A shallow embedding of the vector / edge algebra of [stickworks.py] and of
    the page, the two complementary tetrahedra and the inadvertent tetrahedron
    of [bookdemo.py], followed by the properties of the specification.

    Numbers.  Python's [float] (and the small [int] constants the program
    mixes with them) are idealised as the real numbers of the Standard
    Library: [+], [-], [*], [/] are the field operations, [math.sin],
    [math.cos] and [math.pi] are [sin], [cos] and [PI].  Rounding is therefore
    not part of the model; every equation below is an equation between reals.

    Rendering ([erase], the [visual] scene and the timing of the loops) is
    left out: it only consumes the values computed here.  Of [draw] the
    cylinder it asks for is kept, and of the loops the [delta_angle] calls
    they make. *)

From Stdlib Require Import Reals Lra List Bool.
Import ListNotations.

Local Open Scope R_scope.

(** ** Python-level plumbing shared by both modules *)

(** The two exceptions the modelled code can raise. *)
Inductive exn : Type :=
| TypeError                  (* raise TypeError("Wrong input types") *)
| ValueError                 (* math.sqrt: "math domain error" *)
| InvalidTetrahedronError.   (* the volume formula on impossible lengths *)

(** A computation that either raises or returns. *)
Definition result (A : Type) : Type := (exn + A)%type.

Definition ret {A : Type} (a : A) : result A := inr a.
Definition raise {A : Type} (e : exn) : result A := inl e.

Definition bind {A B : Type} (m : result A) (k : A -> result B) : result B :=
  match m with
  | inl e => inl e
  | inr a => k a
  end.

Notation "x <- m ;; k" := (bind m (fun x => k))
  (at level 61, m at next level, right associativity).

(** [math.radians]. *)
Definition radians (deg : R) : R := deg * (PI / 180).

(** [math.sqrt]: raises [ValueError] on a negative argument. *)
Definition math_sqrt (r : R) : result R :=
  if Rlt_dec r 0 then raise ValueError else ret (sqrt r).

(** [pow(s, 0.5)] as [Vector._length] uses it: its argument is a sum of
    squares, and on a non-negative float [pow(., 0.5)] is the square root. *)
Definition pow_half (s : R) : R := sqrt s.

(** ** stickworks.py *)

Module stickworks.

(** An RGB colour, as [visual] passes them around. *)
Definition rgb : Type := (R * R * R)%type.

(** [class Vector]: the wrapped [visual.vector], by its three coordinates. *)
Record Vector : Type := mkVector { vx : R; vy : R; vz : R }.

(** [Vector.__sub__] *)
Definition sub (self other : Vector) : Vector :=
  mkVector (vx self - vx other) (vy self - vy other) (vz self - vz other).

(** [Vector.__add__] *)
Definition add (self other : Vector) : Vector :=
  mkVector (vx self + vx other) (vy self + vy other) (vz self + vz other).

(** [Vector.__mul__] (and [__rmul__], which is the same function) *)
Definition mul (self : Vector) (scalar : R) : Vector :=
  mkVector (vx self * scalar) (vy self * scalar) (vz self * scalar).

(** [Vector.__neg__] *)
Definition neg (self : Vector) : Vector :=
  mkVector (- vx self) (- vy self) (- vz self).

(** [Vector.dot] *)
Definition dot (self other : Vector) : R :=
  vx self * vx other + vy self * vy other + vz self * vz other.

(** [Vector.cross] *)
Definition cross (self other : Vector) : Vector :=
  mkVector (vy self * vz other - vz self * vy other)
           (vz self * vx other - vx self * vz other)
           (vx self * vy other - vy self * vx other).

(** [Vector._length], exposed as the property [length]:
    [pow(self.v.x ** 2 + self.v.y ** 2 + self.v.z ** 2, 0.5)] *)
Definition _length (self : Vector) : R :=
  pow_half (vx self ^ 2 + vy self ^ 2 + vz self ^ 2).

(** What a caller can hand to [Edge(...)] in untyped Python: a [Vector]
    instance, or something that is not one. *)
Inductive pyobj : Type :=
| PyVector (v : Vector)
| PyTuple (xyz : R * R * R)
| PyNumber (r : R)
| PyNone.

(** [isinstance(o, Vector)] *)
Definition isinstance_Vector (o : pyobj) : bool :=
  match o with
  | PyVector _ => true
  | _ => false
  end.

(** [class Edge]: the two endpoints and the instance's own colour, if it
    was given one (otherwise the class attribute [Edge.color] shows). *)
Record Edge : Type := mkEdge { v0 : Vector; v1 : Vector; color : option rgb }.

(** [Edge.__init__(self, v0, v1, color=None)] *)
Definition Edge_init (a b : pyobj) (col : option rgb) : result Edge :=
  if negb (isinstance_Vector a) || negb (isinstance_Vector b)
  then raise TypeError
  else
    match a, b with
    | PyVector va, PyVector vb => ret (mkEdge va vb col)
    | _, _ => raise TypeError
    end.

(** [Edge(v0, v1)] on two values already known to be [Vector]s, which is
    every call of [bookdemo.py]. *)
Definition Edge_of (a b : Vector) : Edge := mkEdge a b None.

(** [Edge._length], exposed as the property [length]:
    [(self.v1 - self.v0).length] *)
Definition Edge_length (self : Edge) : R := _length (sub (v1 self) (v0 self)).

End stickworks.

(** ** tetravolumes.py

    [bookdemo.py] imports [Tetrahedron] from this module, which is not among
    the sources: what follows is written from the specification's account of
    the volume computation. *)

Module tetravolumes.

(** Modelled from the spec: the determinant the volume formula takes, by
    Laplace expansion along the first row of a matrix given by its rows.
    [remove_nth j] drops column [j] of a row. *)
Fixpoint remove_nth {A : Type} (j : nat) (l : list A) : list A :=
  match l, j with
  | [], _ => []
  | _ :: t, O => t
  | h :: t, S j' => h :: remove_nth j' t
  end.

(** Modelled from the spec: the alternating sum over the entries of the
    first row, each times the determinant of its minor. *)
Fixpoint cofactors (minor_det : list (list R) -> R) (row : list R)
         (rest : list (list R)) (j : nat) (sign : R) : R :=
  match row with
  | [] => 0
  | h :: row' =>
      sign * h * minor_det (map (remove_nth j) rest)
      + cofactors minor_det row' rest (S j) (- sign)
  end.

(** Modelled from the spec: the determinant of an [n] x [n] matrix. *)
Fixpoint determinant (n : nat) (m : list (list R)) : R :=
  match n, m with
  | S n', row :: rest => cofactors (determinant n') row rest 0 1
  | _, _ => 1
  end.

(** Modelled from the spec: the 5x5 Cayley-Menger matrix of four points
    0..3, from the six squared distances [qij] between point [i] and point
    [j]. *)
Definition cayley_menger (q01 q02 q03 q12 q13 q23 : R) : list (list R) :=
  [ [0;   1;   1;   1;   1  ];
    [1;   0;   q01; q02; q03];
    [1;   q01; 0;   q12; q13];
    [1;   q02; q12; 0;   q23];
    [1;   q03; q13; q23; 0  ] ].

(** Modelled from the spec: the class [Tetrahedron] of [tetravolumes.py],
    which [bookdemo.py] imports and which is not among the sources.  It
    holds the six edge lengths in the order [bookdemo.complementary] passes
    them, with the reference diameter [pv]. *)
Record Tetrahedron : Type :=
  mkTetrahedron { a : R; b : R; c : R; d : R; e : R; f : R; pv : R }.

(** Modelled from the spec: the determinant of the Cayley-Menger matrix
    built from the six squared edge lengths of a [Tetrahedron].  Each length
    sits on the edge it measures in the specification's list of the six
    lengths (tip-S0, tip-Ci, tip-S1, S0-Ci, S1-Ci, spine): [a], [b], [c] run
    from point 0 to points 1, 2, 3, and [d], [e], [f] are the edges 1-2, 2-3
    and 3-1 of the face opposite point 0. *)
Definition cm_det (t : Tetrahedron) : R :=
  determinant 5
    (cayley_menger (a t ^ 2) (b t ^ 2) (c t ^ 2) (d t ^ 2) (f t ^ 2) (e t ^ 2)).

(** Modelled from the spec: the two volume units. *)
Inductive unit_mode : Type := NATURAL | CONVENTIONAL.

Section Volume.

(** The normalisation of the conventional unit from the reference
    diameter, which the specification leaves to the caller. *)
Variable conventional_norm : R -> R.

(** The explicit tolerance of the degeneracy test. *)
Variable tol : R.

(** Modelled from the spec: volume squared is the determinant times a
    constant fixed by the unit; in the natural unit the regular
    tetrahedron of unit edge, whose determinant is 4, has volume 1. *)
Definition norm (u : unit_mode) (t : Tetrahedron) : R :=
  match u with
  | NATURAL => / 4
  | CONVENTIONAL => conventional_norm (pv t)
  end.

(** Modelled from the spec: [TetrahedronVolume.compute], absent from the
    sources.  A determinant below [- tol] is an impossible edge
    combination, one within [tol] of zero is a flat tetrahedron of volume
    0, and otherwise the volume is the square root of the normalised
    determinant. *)
Definition compute (t : Tetrahedron) (u : unit_mode) : result R :=
  let det := cm_det t in
  if Rlt_dec det (- tol) then raise InvalidTetrahedronError
  else if Rle_dec det tol then ret 0
  else ret (sqrt (norm u t * det)).

End Volume.

End tetravolumes.

(** ** bookdemo.py *)

Module bookdemo.

Import stickworks tetravolumes.

(** [visual.color] constants used for the book. *)
Definition yellow : rgb := (1, 1, 0).
Definition orange : rgb := (1, 6 / 10, 0).

(** [D = 2]: diameter of the unit-radius sphere. *)
Definition D : R := 2.

(** The spine [S0 --- S1], along the Y axis. *)
Definition S0 : Vector := mkVector 0 (sqrt 2 / 2) 0.
Definition S1 : Vector := neg S0.
Definition spine : Edge := mkEdge S0 S1 (Some yellow).

(** The cover axis [C0 --- C1], along the X axis. *)
Definition C0 : Vector := mkVector 1 0 0.
Definition C1 : Vector := neg C0.
Definition axis : Edge := Edge_of C0 C1.

(** Spine to [C0], spine to [C1]. *)
Definition S0C0 : Edge := mkEdge S0 C0 (Some orange).
Definition S1C0 : Edge := mkEdge S1 C0 (Some orange).
Definition S0C1 : Edge := mkEdge S0 C1 (Some orange).
Definition S1C1 : Edge := mkEdge S1 C1 (Some orange).

(** The four edges of the book covers' diamond. *)
Definition rhomb_length : R := Edge_length S0C1.

(** [class Page]: the attributes [angle] (degrees), [up] and [tip]. *)
Record Page : Type := mkPage { angle : R; up : bool; tip : Vector }.

(** [Page._getVector(self)]: reads [self.angle] and [self.up] only. *)
Definition _getVector (self : Page) : Vector :=
  let z := sin (radians (angle self)) * Edge_length axis / 2 in
  let x := cos (radians (angle self)) * Edge_length axis / 2 in
  let (z, x) := if negb (up self) then (- z, - x) else (z, x) in
  let y := 0 in
  mkVector x y z.

(** [self.tip = self._getVector()] *)
Definition set_tip (self : Page) : Page :=
  mkPage (angle self) (up self) (_getVector self).

(** [Page.__init__(self, angle=0, up=True)]; the tip is computed from the
    two attributes just stored. *)
Definition Page_init (angle0 : R) (up0 : bool) : Page :=
  set_tip (mkPage angle0 up0 (mkVector 0 0 0)).

(** [Page.delta_angle(self, degrees)] *)
Definition delta_angle (self : Page) (degrees : R) : Page :=
  set_tip (mkPage (angle self + degrees) (up self) (tip self)).

(** The two pages of the program: [Page()] and [Page(up=False)]. *)
Definition page_up : Page := Page_init 0 true.
Definition page_dwn : Page := Page_init 0 false.

(** [complementary(page)] *)
Definition complementary (page : Page) : Tetrahedron * Tetrahedron :=
  let t0 :=
    mkTetrahedron (Edge_length (Edge_of (tip page) S0))
                  (Edge_length (Edge_of (tip page) C0))
                  (Edge_length (Edge_of (tip page) S1))
                  (Edge_length S0C0)
                  (Edge_length S1C0)
                  (Edge_length spine)
                  D in
  let t1 :=
    mkTetrahedron (Edge_length (Edge_of (tip page) S0))
                  (Edge_length (Edge_of (tip page) C1))
                  (Edge_length (Edge_of (tip page) S1))
                  (Edge_length S0C1)
                  (Edge_length S1C1)
                  (Edge_length spine)
                  D in
  (t0, t1).

(** [inadvertent(page)]: the four vertices [P0, P1, Q0, Q1]. *)
Definition inadvertent (page : Page)
  : result (Vector * Vector * Vector * Vector) :=
  let P_len := Edge_length (Edge_of (tip page) C1) in
  let Q_len := Edge_length (Edge_of (tip page) C0) in
  let QmQ0_len := Q_len / 2 in
  let PmP1_len := P_len / 2 in
  PmQ0_len <- math_sqrt (rhomb_length ^ 2 - PmP1_len ^ 2) ;;
  x <- math_sqrt (PmQ0_len ^ 2 - QmQ0_len ^ 2) ;;
  let Pm := mkVector (- x / 2) 0 0 in
  let Qm := mkVector (x / 2) 0 0 in
  let P0 := add Pm (mkVector 0 (- P_len / 2) 0) in
  let P1 := add Pm (mkVector 0 (P_len / 2) 0) in
  let Q0 := add Qm (mkVector 0 0 (Q_len / 2)) in
  let Q1 := add Qm (mkVector 0 0 (- Q_len / 2)) in
  ret (P0, P1, Q0, Q1).

End bookdemo.

(** ** Notions used in the statements *)

Import stickworks tetravolumes bookdemo.

(** A page driven through a sequence of [delta_angle] calls, as the loops of
    the program do with [page_up] and [page_dwn]. *)
Definition sweep (self : Page) (steps : list R) : Page :=
  fold_left delta_angle steps self.

(** The two lengths [inadvertent] starts from, [P_len] and [Q_len]. *)
Definition P_len (page : Page) : R := Edge_length (Edge_of (tip page) C1).
Definition Q_len (page : Page) : R := Edge_length (Edge_of (tip page) C0).

(** The arguments of the two [math.sqrt] calls of [inadvertent]. *)
Definition radicand1 (page : Page) : R :=
  rhomb_length ^ 2 - (P_len page / 2) ^ 2.
Definition radicand2 (page : Page) : R :=
  sqrt (radicand1 page) ^ 2 - (Q_len page / 2) ^ 2.

(** The squared distance between two points. *)
Definition dist2 (p q : Vector) : R := _length (sub q p) ^ 2.

(** On a tip of the page the second coordinate is 0 and the other two lie on
    the unit circle. *)
Definition on_arc (t : Vector) : Prop := vy t = 0 /\ vx t ^ 2 + vz t ^ 2 = 1.

(** What holds of a page however it was driven: the tip is the one its
    angle and facing give, and the facing is the one it was built with. *)
Definition page_ok (facing : bool) (page : Page) : Prop :=
  tip page = _getVector page /\ up page = facing.

(** The four vertices [inadvertent] returns when both square roots exist. *)
Definition inadvertent_vertices (page : Page)
  : Vector * Vector * Vector * Vector :=
  let x := sqrt (radicand2 page) in
  (add (mkVector (- x / 2) 0 0) (mkVector 0 (- P_len page / 2) 0),
   add (mkVector (- x / 2) 0 0) (mkVector 0 (P_len page / 2) 0),
   add (mkVector (x / 2) 0 0) (mkVector 0 0 (Q_len page / 2)),
   add (mkVector (x / 2) 0 0) (mkVector 0 0 (- Q_len page / 2))).

(** Modelled from the spec: the edge convention as the data model words it,
    [a], [b], [c] the three edges of one face and [d], [e], [f] the edges
    from the fourth point, with [d] opposite [a], [e] opposite [b] and [f]
    opposite [c]; that is, [a], [b], [c] on the edges 1-2, 2-3, 3-1 and [d],
    [e], [f] on the edges 0-3, 0-1, 0-2.  It is kept apart from [cm_det] to
    show which of the two readings fits the lengths [complementary] passes. *)
Definition cm_det_face_first (t : Tetrahedron) : R :=
  determinant 5
    (cayley_menger (e t ^ 2) (f t ^ 2) (d t ^ 2) (a t ^ 2) (c t ^ 2) (b t ^ 2)).

(** ** More of stickworks.py: drawing, plotting and the calculus demo *)

Module plotting.

(** What [visual.cylinder(pos, axis, radius, color)] is given. *)
Record cylinder : Type :=
  mkCylinder { cyl_pos : Vector; cyl_axis : Vector; cyl_radius : R;
               cyl_color : rgb }.

(** The class attributes [Vector.radius], [Edge.radius] and [Edge.color]. *)
Definition Vector_radius : R := 3 / 100.
Definition Edge_radius : R := 3 / 100.
Definition Edge_color : rgb := (1, 0, 0).

(** [Vector.draw(self)]: a cylinder from the origin along the vector, in
    the colour the vector was built with. *)
Definition Vector_draw (self : Vector) (self_color : rgb) : cylinder :=
  mkCylinder (mkVector 0 0 0) self Vector_radius self_color.

(** [self.color] on an [Edge]: the instance attribute if [__init__] set
    one, the class attribute (whatever it currently is) otherwise. *)
Definition Edge_get_color (class_color : rgb) (self : Edge) : rgb :=
  match color self with
  | Some col => col
  | None => class_color
  end.

(** [Edge.draw(self)] *)
Definition Edge_draw (class_color : rgb) (self : Edge) : cylinder :=
  let temp := sub (v1 self) (v0 self) in
  mkCylinder (v0 self) temp Edge_radius (Edge_get_color class_color self).

(** [dgen(start, step)]: the state of the generator is the current value of
    [start]; [next] yields it and adds [step]. *)
Definition dgen_next (step : R) (start : R) : R * R := (start, start + step).

(** [n] calls of [next] on [dgen(start, step)]: the values yielded, in
    order, and the state it is left in. *)
Fixpoint dgen_run (step : R) (n : nat) (start : R) : list R * R :=
  match n with
  | O => ([], start)
  | S n' =>
      let (x, start') := dgen_next step start in
      let (xs, final) := dgen_run step n' start' in
      (x :: xs, final)
  end.

Section xyplotter.

(** The domain: an initialised generator that never ends, by its state and
    its [next]. *)
Variable D : Type.
Variable next_domain : D -> R * D.

(** The function plotted. *)
Variable f : R -> R.

(** The generator [xyplotter(domain, f)]: not started yet, or suspended at
    its [yield] with [x0], [y0] already advanced. *)
Inductive plotter : Type :=
| Fresh (domain : D)
| Suspended (domain : D) (x0 y0 : R).

Definition xyplotter (domain : D) : plotter := Fresh domain.

(** One [next(graph)]: the edge it draws and the generator afterwards. *)
Definition xyplotter_next (g : plotter) : Edge * plotter :=
  let '(domain, x0, y0) :=
    match g with
    | Fresh domain =>
        let (x0, domain') := next_domain domain in (domain', x0, f x0)
    | Suspended domain x0 y0 => (domain, x0, y0)
    end in
  let (x1, domain') := next_domain domain in
  let y1 := f x1 in
  let e := Edge_of (mkVector x0 y0 0) (mkVector x1 y1 0) in
  (e, Suspended domain' x1 y1).

(** [n] calls of [next(graph)]: the edges drawn, in order. *)
Fixpoint xyplotter_run (n : nat) (g : plotter) : list Edge :=
  match n with
  | O => []
  | S n' => let (e, g') := xyplotter_next g in e :: xyplotter_run n' g'
  end.

End xyplotter.

(** Division by a float that is zero raises. *)
Inductive arith_exn : Type := ZeroDivisionError.

(** [snakeywakey(x)] of [testmemore] *)
Definition snakeywakey (x : R) : R :=
  1 / 100 * (x - 3) * (x - 2) * (x + 3) * (x + 7).

(** [deriv(f, h)] of [testmemore]: the function [funk] it returns.  [f] is
    itself allowed to raise, as it can when it is another [funk]. *)
Definition deriv (f : R -> arith_exn + R) (h : R) (x : R) : arith_exn + R :=
  match f (x + h) with
  | inl err => inl err
  | inr fxh =>
      match f x with
      | inl err => inl err
      | inr fx =>
          if Req_dec_T h 0 then inl ZeroDivisionError
          else inr ((fxh - fx) / h)
      end
  end.

(** A Python function that never raises. *)
Definition never_raises (f : R -> R) (x : R) : arith_exn + R := inr (f x).

(** The default step [h=1e-5]. *)
Definition deriv_h : R := 1 / 100000.

End plotting.

(** ** More of bookdemo.py: the edges drawn and the two loops *)

Module loops.

(** [visual.color] constants of the page and of the inadvertent
    tetrahedron. *)
Definition magenta : rgb := (1, 0, 1).
Definition green : rgb := (0, 1, 0).

(** [drawit(page)]: the four edges [s, t, u, v] from the tip. *)
Definition drawit (page : Page) : Edge * Edge * Edge * Edge :=
  (mkEdge (tip page) S0 (Some orange),
   mkEdge (tip page) C1 (Some magenta),
   mkEdge (tip page) S1 (Some orange),
   mkEdge (tip page) C0 (Some green)).

(** [drawit2(page)]: the same edges, the two colours exchanged. *)
Definition drawit2 (page : Page) : Edge * Edge * Edge * Edge :=
  (mkEdge (tip page) S0 (Some orange),
   mkEdge (tip page) C1 (Some green),
   mkEdge (tip page) S1 (Some orange),
   mkEdge (tip page) C0 (Some magenta)).

(** [drawit3(P0, P1, Q0, Q1)]: the six edges, in the order returned. *)
Definition drawit3 (P0 P1 Q0 Q1 : Vector) : list Edge :=
  let P0P1 := mkEdge P0 P1 (Some magenta) in
  let Q0Q1 := mkEdge Q0 Q1 (Some green) in
  let P1Q0 := mkEdge P1 Q0 (Some orange) in
  let P1Q1 := mkEdge P1 Q1 (Some orange) in
  let P0Q0 := mkEdge P0 Q0 (Some orange) in
  let P0Q1 := mkEdge P0 Q1 (Some orange) in
  [P0P1; P0Q0; P0Q1; P1Q0; Q0Q1; P1Q1].

(** [Tetrahedron] called on an unpacked list of lengths, with [pv=D]: six
    positional arguments are needed. *)
Definition Tetrahedron_of_list (edge_lengths : list R) : result Tetrahedron :=
  match edge_lengths with
  | [la; lb; lc; ld; le; lf] => ret (mkTetrahedron la lb lc ld le lf D)
  | _ => raise TypeError
  end.

(** The tetrahedron [T3] of [inadvert_loop]:
    [P0,P1,Q0,Q1 = inadvertent(page_up)], [to_erase = drawit3(P0,P1,Q0,Q1)],
    [edge_lengths = [edge.length for edge in to_erase]],
    and [T3] is [Tetrahedron] on the unpacked [edge_lengths], with [pv=D]. *)
Definition inadvert_T3 (page : Page) : result Tetrahedron :=
  pts <- inadvertent page ;;
  let '(P0, P1, Q0, Q1) := pts in
  let to_erase := drawit3 P0 P1 Q0 Q1 in
  let edge_lengths := map Edge_length to_erase in
  Tetrahedron_of_list edge_lengths.

(** The [delta_angle] calls of one pass of the outer loop of [page_loop]:
    181 steps of 1 degree, then 181 steps of -1. *)
Definition page_loop_pass : list R := repeat 1 181 ++ repeat (- 1) 181.

(** The [delta_angle] calls [page_loop] makes on a page: five passes. *)
Definition page_loop_steps : list R :=
  concat (repeat page_loop_pass 5).

End loops.

(** ** Notions used in the further properties *)

Import plotting loops.

(** Consecutive edges of a list are joined end to start. *)
Fixpoint connected (edges : list Edge) : Prop :=
  match edges with
  | e1 :: (e2 :: _) as rest => v1 e1 = v0 e2 /\ connected rest
  | _ => True
  end.

(** The far end of a cylinder. *)
Definition cylinder_end (cy : cylinder) : Vector := add (cyl_pos cy) (cyl_axis cy).

(** The sum of a list of increments. *)
Definition total_angle (steps : list R) : R := fold_right Rplus 0 steps.

(** The triple product whose absolute value is six times the volume of the
    tetrahedron on [p0], [p1], [p2], [p3]. *)
Definition triple (p0 p1 p2 p3 : Vector) : R :=
  dot (sub p1 p0) (cross (sub p2 p0) (sub p3 p0)).

(** * Properties *)

(** ** Square roots and lengths *)

Lemma pow_half_sqr (s : R) : 0 <= s -> pow_half s ^ 2 = s.
Proof.
  intros Hs. unfold pow_half. rewrite <- Rsqr_pow2. apply Rsqr_sqrt, Hs.
Qed.

Lemma sum_sqr_nonneg (u v w : R) : 0 <= u ^ 2 + v ^ 2 + w ^ 2.
Proof.
  pose proof (pow2_ge_0 u). pose proof (pow2_ge_0 v). pose proof (pow2_ge_0 w).
  lra.
Qed.

Lemma length_nonneg (v : Vector) : 0 <= _length v.
Proof. unfold _length, pow_half. apply sqrt_pos. Qed.

Lemma length_sqr (v : Vector) :
  _length v ^ 2 = vx v ^ 2 + vy v ^ 2 + vz v ^ 2.
Proof. unfold _length. apply pow_half_sqr, sum_sqr_nonneg. Qed.

Lemma Edge_length_nonneg (ed : Edge) : 0 <= Edge_length ed.
Proof. apply length_nonneg. Qed.

Lemma Edge_length_sqr (ed : Edge) :
  Edge_length ed ^ 2 =
  (vx (v1 ed) - vx (v0 ed)) ^ 2 + (vy (v1 ed) - vy (v0 ed)) ^ 2
  + (vz (v1 ed) - vz (v0 ed)) ^ 2.
Proof. unfold Edge_length. rewrite length_sqr. reflexivity. Qed.

(** Two non-negative numbers with the same square are equal. *)
Lemma sqr_inj_nonneg (u v : R) : 0 <= u -> 0 <= v -> u ^ 2 = v ^ 2 -> u = v.
Proof.
  intros Hu Hv Huv. rewrite <- !Rsqr_pow2 in Huv.
  apply Rsqr_inj; assumption.
Qed.

Lemma sqrt2_half_sqr : (sqrt 2 / 2) ^ 2 = / 2.
Proof.
  replace ((sqrt 2 / 2) ^ 2) with (sqrt 2 ^ 2 / 4) by field.
  rewrite <- Rsqr_pow2, Rsqr_sqrt by lra. lra.
Qed.

Lemma dist2_sym (p q : Vector) : dist2 p q = dist2 q p.
Proof.
  unfold dist2. rewrite !length_sqr. unfold sub. cbn [vx vy vz]. ring.
Qed.

(** C10.  The length of an edge is the Euclidean distance between its
    endpoints: the length of the difference vector, the square root of the
    sum of the squared coordinate differences.  It does not change when the
    endpoints are swapped, is never negative, and is 0 when they coincide. *)
Theorem Edge_length_euclidean (p q : Vector) (cpq cqp : option rgb) :
  Edge_length (mkEdge p q cpq) = _length (sub q p)
  /\ Edge_length (mkEdge p q cpq)
     = sqrt ((vx q - vx p) ^ 2 + (vy q - vy p) ^ 2 + (vz q - vz p) ^ 2)
  /\ Edge_length (mkEdge q p cqp) = Edge_length (mkEdge p q cpq)
  /\ 0 <= Edge_length (mkEdge p q cpq)
  /\ Edge_length (mkEdge p p cpq) = 0.
Proof.
  split; [reflexivity |]. split; [reflexivity |]. split; [| split].
  - apply sqr_inj_nonneg; try apply Edge_length_nonneg.
    rewrite !Edge_length_sqr. cbn [v0 v1]. ring.
  - apply Edge_length_nonneg.
  - apply sqr_inj_nonneg; [apply Edge_length_nonneg | lra |].
    rewrite Edge_length_sqr. cbn [v0 v1]. ring.
Qed.

(** ** Building an edge *)

(** C9.  [Edge(v0, v1)] raises ([TypeError], the invalid-endpoint error)
    exactly when one of the two arguments is not a [Vector], and otherwise
    returns, with no error, the edge between them. *)
Theorem Edge_init_type_check (o0 o1 : pyobj) (col : option rgb) :
  (Edge_init o0 o1 col = inl TypeError <->
   isinstance_Vector o0 = false \/ isinstance_Vector o1 = false)
  /\ ((exists ed : Edge, Edge_init o0 o1 col = inr ed
                         /\ o0 = PyVector (v0 ed) /\ o1 = PyVector (v1 ed)
                         /\ color ed = col) <->
      isinstance_Vector o0 = true /\ isinstance_Vector o1 = true).
Proof.
  destruct o0 as [va | | |], o1 as [vb | | |]; cbn;
    (split; split;
     [ try discriminate; try (intros _; auto; fail)
     | try (intros [H | H]; discriminate H); try reflexivity
     | try (intros [ed [H _]]; discriminate H); try (intros _; auto; fail)
     | try (intros [H1 H2]; discriminate) ]).
  intros _. exists (mkEdge va vb col). repeat split.
Qed.

Lemma Edge_init_type_check_witness :
  Edge_init (PyTuple (1, 0, 0)) (PyVector C0) None = inl TypeError
  /\ exists ed : Edge,
      Edge_init (PyVector S0) (PyVector C0) (Some orange) = inr ed
      /\ PyVector S0 = PyVector (v0 ed) /\ PyVector C0 = PyVector (v1 ed)
      /\ color ed = Some orange.
Proof.
  split.
  - apply (proj2 (proj1 (Edge_init_type_check
                           (PyTuple (1, 0, 0)) (PyVector C0) None))).
    left. reflexivity.
  - apply (proj2 (proj2 (Edge_init_type_check
                           (PyVector S0) (PyVector C0) (Some orange)))).
    split; reflexivity.
Defined.

(** ** The fixed book geometry *)

(** Unfold the constants of the book down to coordinates. *)
Ltac book_coords :=
  unfold spine, axis, S0C0, S1C0, S0C1, S1C1, Edge_of, S1, C1, S0, C0,
         neg, sub, add;
  cbn [vx vy vz v0 v1].

(** Finish a goal on coordinates in which the spine's half length occurs,
    knowing only its square. *)
Ltac with_spine_half :=
  pose proof sqrt2_half_sqr as Hhalf;
  set (s := sqrt 2 / 2) in *; clearbody s; nra.

Lemma axis_length : Edge_length axis = 2.
Proof.
  apply sqr_inj_nonneg; [apply Edge_length_nonneg | lra |].
  rewrite Edge_length_sqr. book_coords. ring.
Qed.

Lemma spine_length_sqr : Edge_length spine ^ 2 = 2.
Proof. rewrite Edge_length_sqr. book_coords. with_spine_half. Qed.

Lemma rhomb_edges_sqr :
  Edge_length S0C0 ^ 2 = 3 / 2 /\ Edge_length S1C0 ^ 2 = 3 / 2 /\
  Edge_length S0C1 ^ 2 = 3 / 2 /\ Edge_length S1C1 ^ 2 = 3 / 2.
Proof.
  repeat split; rewrite Edge_length_sqr; book_coords; with_spine_half.
Qed.

Lemma rhomb_length_sqr : rhomb_length ^ 2 = 3 / 2.
Proof. apply rhomb_edges_sqr. Qed.

(** ** The page *)

Lemma getVector_coords (self : Page) :
  _getVector self =
  if up self
  then mkVector (cos (radians (angle self))) 0 (sin (radians (angle self)))
  else mkVector (- cos (radians (angle self))) 0 (- sin (radians (angle self))).
Proof.
  unfold _getVector. rewrite axis_length.
  destruct (up self); cbn [negb]; f_equal; field.
Qed.

Lemma getVector_pure (p q : Page) :
  angle p = angle q -> up p = up q -> _getVector p = _getVector q.
Proof. intros Ha Hu. unfold _getVector. rewrite Ha, Hu. reflexivity. Qed.

Lemma tip_Page_init (th : R) (facing : bool) (stale : Vector) :
  tip (Page_init th facing) = _getVector (mkPage th facing stale).
Proof. reflexivity. Qed.

Lemma getVector_on_arc (self : Page) : on_arc (_getVector self).
Proof.
  rewrite getVector_coords. unfold on_arc.
  pose proof (sin2_cos2 (radians (angle self))) as Hsc.
  rewrite !Rsqr_pow2 in Hsc.
  destruct (up self); cbn [vx vy vz]; split; try reflexivity; nra.
Qed.

Lemma Page_init_on_arc (th : R) (facing : bool) :
  on_arc (tip (Page_init th facing)).
Proof. apply getVector_on_arc. Qed.

Lemma tip_page_up : tip page_up = C0.
Proof.
  unfold page_up. rewrite (tip_Page_init 0 true (mkVector 0 0 0)).
  rewrite getVector_coords. cbn [up angle].
  unfold radians, C0. replace (0 * (PI / 180)) with 0 by field.
  rewrite cos_0, sin_0. reflexivity.
Qed.

(** C2.  For every angle and both facings, [_getVector] returns
    [(cos(radians(angle)) * half, 0, sin(radians(angle)) * half)] with
    [half = axis.length / 2], both outer coordinates negated when the page
    faces down, and this is the tip of the page built with that angle and
    facing; it lies in the XZ plane at distance [half] from the origin. *)
Theorem getVector_arc (th : R) (facing : bool) (stale : Vector) :
  let self := mkPage th facing stale in
  let half := Edge_length axis / 2 in
  let x := cos (radians th) * half in
  let z := sin (radians th) * half in
  _getVector self = (if facing then mkVector x 0 z else mkVector (- x) 0 (- z))
  /\ tip (Page_init th facing) = _getVector self
  /\ vy (_getVector self) = 0
  /\ _length (_getVector self) = half.
Proof.
  cbv zeta. split; [| split; [| split]].
  - unfold _getVector. cbn [up angle].
    destruct facing; cbn [negb]; f_equal; field.
  - apply tip_Page_init.
  - apply getVector_on_arc.
  - destruct (getVector_on_arc (mkPage th facing stale)) as [Hy Hxz].
    rewrite axis_length.
    apply sqr_inj_nonneg; [apply length_nonneg | lra |].
    rewrite length_sqr, Hy. nra.
Qed.

(** Over the reals, facing up, the tip at angle 0 is [C0] and the tip at
    angle 180 is [C1], coordinate by coordinate.  Whether the running
    program reaches these coordinates bit for bit depends on how [math.sin]
    and [math.cos] round, which the real numbers do not tell. *)
Lemma tip_at_cover_ends :
  tip (Page_init 0 true) = C0 /\ tip (Page_init 180 true) = C1.
Proof.
  split; [exact tip_page_up |].
  rewrite (tip_Page_init 180 true (mkVector 0 0 0)), getVector_coords.
  cbn [up angle]. unfold radians, C1, C0, neg. cbn [vx vy vz].
  replace (180 * (PI / 180)) with PI by field.
  rewrite cos_PI, sin_PI. f_equal; ring.
Qed.

(** C6.  [delta_angle] is additive: two calls with [a] then [b] leave the
    page in the state, so with the tip, that one call with [a + b] gives. *)
Theorem delta_angle_additive (page : Page) (a b : R) :
  tip (delta_angle (delta_angle page a) b) = tip (delta_angle page (a + b))
  /\ delta_angle (delta_angle page a) b = delta_angle page (a + b).
Proof.
  assert (H : delta_angle (delta_angle page a) b = delta_angle page (a + b)).
  { unfold delta_angle, set_tip. cbn [angle up tip].
    rewrite Rplus_assoc. reflexivity. }
  split; [rewrite H; reflexivity | exact H].
Qed.

(** *** Pages driven by [delta_angle] *)

Lemma Page_init_ok (th : R) (facing : bool) :
  page_ok facing (Page_init th facing).
Proof. split; reflexivity. Qed.

Lemma delta_angle_ok (facing : bool) (page : Page) (deg : R) :
  page_ok facing page -> page_ok facing (delta_angle page deg).
Proof. intros [_ Hup]. split; [reflexivity | exact Hup]. Qed.

Lemma sweep_ok (facing : bool) (steps : list R) :
  forall page, page_ok facing page -> page_ok facing (sweep page steps).
Proof.
  induction steps as [| deg steps IH]; intros page Hok; cbn [sweep fold_left].
  - exact Hok.
  - apply IH, delta_angle_ok, Hok.
Qed.

Lemma sweep_angle (steps : list R) :
  forall page, angle (sweep page steps) = angle page + fold_right Rplus 0 steps.
Proof.
  induction steps as [| deg steps IH]; intros page;
    cbn [sweep fold_left fold_right].
  - ring.
  - change (fold_left delta_angle steps (delta_angle page deg))
      with (sweep (delta_angle page deg) steps).
    rewrite IH. cbn [delta_angle set_tip angle]. ring.
Qed.

Lemma sweep_on_arc (th : R) (facing : bool) (steps : list R) :
  on_arc (tip (sweep (Page_init th facing) steps)).
Proof.
  destruct (sweep_ok facing steps _ (Page_init_ok th facing)) as [-> _].
  apply getVector_on_arc.
Qed.

(** C8.  After construction and after any sequence of [delta_angle] calls,
    the stored tip is what [_getVector] computes from the current angle and
    facing alone (whatever tip was stored before), the facing is the one
    given at construction, and the angle is the initial one plus the
    increments. *)
Theorem tip_follows_angle (th : R) (facing : bool) (steps : list R) :
  let page := sweep (Page_init th facing) steps in
  (forall stale : Vector,
      tip page = _getVector (mkPage (angle page) (up page) stale))
  /\ up page = facing
  /\ angle page = th + fold_right Rplus 0 steps.
Proof.
  cbv zeta.
  destruct (sweep_ok facing steps _ (Page_init_ok th facing)) as [Htip Hup].
  split; [| split].
  - intros stale. rewrite Htip. apply getVector_pure; reflexivity.
  - exact Hup.
  - rewrite sweep_angle. reflexivity.
Qed.

(** ** The Cayley-Menger determinant *)

Lemma determinant_cayley_menger (q01 q02 q03 q12 q13 q23 : R) :
  determinant 5 (cayley_menger q01 q02 q03 q12 q13 q23) =
  2 * (q01 * q23 * (q02 + q03 + q12 + q13 - q01 - q23)
       + q02 * q13 * (q01 + q03 + q12 + q23 - q02 - q13)
       + q03 * q12 * (q01 + q02 + q13 + q23 - q03 - q12)
       - q01 * q02 * q12 - q01 * q03 * q13 - q02 * q03 * q23
       - q12 * q13 * q23).
Proof. cbn [determinant cofactors cayley_menger map remove_nth]. ring. Qed.

(** On the six distances of four points in space the determinant is 8 times
    the square of the triple product of the edges at the first point, that
    is 288 times the squared volume. *)
Lemma cayley_menger_points (p0 p1 p2 p3 : Vector) :
  determinant 5
    (cayley_menger (dist2 p0 p1) (dist2 p0 p2) (dist2 p0 p3)
                   (dist2 p1 p2) (dist2 p1 p3) (dist2 p2 p3)) =
  8 * dot (sub p1 p0) (cross (sub p2 p0) (sub p3 p0)) ^ 2.
Proof.
  rewrite determinant_cayley_menger. unfold dist2. rewrite !length_sqr.
  destruct p0, p1, p2, p3. unfold dot, cross, sub. cbn [vx vy vz]. ring.
Qed.

(** The regular tetrahedron of unit edge, the unit of the natural mode. *)
Lemma cm_det_regular : cm_det (mkTetrahedron 1 1 1 1 1 1 1) = 4.
Proof.
  unfold cm_det. rewrite determinant_cayley_menger. cbn [a b c d e f]. ring.
Qed.

(** A [Tetrahedron] whose lengths are measured between four points, in the
    order [complementary] uses: apex [p0], then the face [p1], [p2], [p3]. *)
Lemma cm_det_of_points (p0 p1 p2 p3 : Vector) (k : R)
      (ca cb cc cd ce cf : option rgb) :
  cm_det (mkTetrahedron (Edge_length (mkEdge p0 p1 ca))
                        (Edge_length (mkEdge p0 p2 cb))
                        (Edge_length (mkEdge p0 p3 cc))
                        (Edge_length (mkEdge p1 p2 cd))
                        (Edge_length (mkEdge p3 p2 ce))
                        (Edge_length (mkEdge p1 p3 cf)) k) =
  8 * dot (sub p1 p0) (cross (sub p2 p0) (sub p3 p0)) ^ 2.
Proof.
  rewrite <- cayley_menger_points. rewrite (dist2_sym p2 p3). reflexivity.
Qed.

(** ** The complementary tetrahedra *)

Lemma triple_cover0 (t : Vector) :
  dot (sub S0 t) (cross (sub C0 t) (sub S1 t)) = 2 * (sqrt 2 / 2) * vz t.
Proof. book_coords. unfold dot, cross. cbn [vx vy vz]. ring. Qed.

Lemma triple_cover1 (t : Vector) :
  dot (sub S0 t) (cross (sub C1 t) (sub S1 t)) = - (2 * (sqrt 2 / 2) * vz t).
Proof. book_coords. unfold dot, cross. cbn [vx vy vz]. ring. Qed.

(** Both complementary tetrahedra have the same determinant, whatever the
    tip: 16 times the square of its height over the covers. *)
Lemma cm_det_complementary (page : Page) :
  cm_det (fst (complementary page)) = 16 * vz (tip page) ^ 2 /\
  cm_det (snd (complementary page)) = 16 * vz (tip page) ^ 2.
Proof.
  unfold complementary, spine, S0C0, S1C0, S0C1, S1C1, Edge_of.
  cbn [fst snd]. rewrite !cm_det_of_points, triple_cover0, triple_cover1.
  split; with_spine_half.
Qed.

Lemma cm_det_complementary_angle (th : R) (facing : bool) (steps : list R) :
  let page := sweep (Page_init th facing) steps in
  cm_det (fst (complementary page)) = 16 * sin (radians (angle page)) ^ 2.
Proof.
  cbv zeta. set (page := sweep (Page_init th facing) steps).
  destruct (cm_det_complementary page) as [-> _].
  destruct (sweep_ok facing steps _ (Page_init_ok th facing)) as [Htip _].
  fold page in Htip. rewrite Htip, getVector_coords.
  destruct (up page); cbn [vz]; ring.
Qed.

Lemma pv_complementary (page : Page) :
  pv (fst (complementary page)) = pv (snd (complementary page)).
Proof. reflexivity. Qed.

(** The two volumes are computed alike, whatever the unit and tolerance. *)
Lemma compute_complementary (conv : R -> R) (tol : R) (u : unit_mode)
      (page : Page) :
  compute conv tol (fst (complementary page)) u =
  compute conv tol (snd (complementary page)) u.
Proof.
  destruct (cm_det_complementary page) as [H0 H1].
  unfold compute, norm. rewrite H0, H1, pv_complementary. reflexivity.
Qed.

Lemma compute_returns (conv : R -> R) (tol : R) (u : unit_mode)
      (t : Tetrahedron) :
  0 <= tol -> 0 <= cm_det t -> exists vol, compute conv tol t u = inr vol.
Proof.
  intros Htol Hdet. unfold compute.
  destruct (Rlt_dec (cm_det t) (- tol)) as [Hneg | _]; [lra |].
  destruct (Rle_dec (cm_det t) tol); eexists; reflexivity.
Qed.

(** C1.  For every angle and both facings the two tetrahedra returned by
    [complementary] have a volume, and it is the same number: the
    Cayley-Menger volumes are equal exactly, hence within the relative
    tolerance 1e-6 (and any other). *)
Theorem complementary_volumes_equal (conv : R -> R) (tol : R) (u : unit_mode)
        (th : R) (facing : bool) (Htol : 0 <= tol) :
  exists vol0 vol1 : R,
    compute conv tol (fst (complementary (Page_init th facing))) u = inr vol0
    /\ compute conv tol (snd (complementary (Page_init th facing))) u = inr vol1
    /\ vol0 = vol1
    /\ Rabs (vol0 - vol1) <= / 1000000 * Rabs vol0.
Proof.
  set (page := Page_init th facing).
  destruct (cm_det_complementary page) as [H0 _].
  assert (Hdet : 0 <= cm_det (fst (complementary page))).
  { rewrite H0. pose proof (pow2_ge_0 (vz (tip page))). lra. }
  destruct (compute_returns conv tol u _ Htol Hdet) as [vol Hvol].
  exists vol, vol. repeat split.
  - exact Hvol.
  - rewrite <- compute_complementary. exact Hvol.
  - replace (vol - vol) with 0 by ring. rewrite Rabs_R0.
    pose proof (Rabs_pos vol). lra.
Qed.

Lemma complementary_volumes_equal_witness :
  exists vol0 vol1 : R,
    compute (fun _ => / 288) 0 (fst (complementary (Page_init 90 true))) NATURAL
    = inr vol0
    /\ compute (fun _ => / 288) 0 (snd (complementary (Page_init 90 true))) NATURAL
       = inr vol1
    /\ vol0 = vol1
    /\ Rabs (vol0 - vol1) <= / 1000000 * Rabs vol0.
Proof.
  apply (complementary_volumes_equal (fun _ => / 288) 0 NATURAL 90 true).
  lra.
Defined.

(** The common volume is not always 0: with the page upright, at 90
    degrees, both tetrahedra have 2 natural units. *)
Example complementary_volume_at_90 (conv : R -> R) :
  compute conv 0 (fst (complementary (Page_init 90 true))) NATURAL = inr 2
  /\ compute conv 0 (snd (complementary (Page_init 90 true))) NATURAL = inr 2.
Proof.
  rewrite <- compute_complementary.
  assert (Hdet : cm_det (fst (complementary (Page_init 90 true))) = 16).
  { pose proof (cm_det_complementary_angle 90 true []) as Hsin.
    cbv zeta in Hsin. cbn [sweep fold_left] in Hsin. rewrite Hsin.
    change (angle (Page_init 90 true)) with 90. unfold radians.
    replace (90 * (PI / 180)) with (PI / 2) by field.
    rewrite sin_PI2. ring. }
  assert (H : compute conv 0 (fst (complementary (Page_init 90 true))) NATURAL
              = inr 2).
  { unfold compute, norm. rewrite Hdet.
    destruct (Rlt_dec 16 (- 0)) as [Hn | _]; [lra |].
    destruct (Rle_dec 16 0) as [Hn | _]; [lra |].
    unfold ret. f_equal.
    replace (/ 4 * 16) with (2 ^ 2) by field.
    rewrite <- Rsqr_pow2. apply sqrt_Rsqr. lra. }
  split; exact H.
Qed.

(** With the letters read as the data model words them, the lengths of the
    two tetrahedra of the closed book (angle 0) give different determinants,
    the first one negative: that reading does not fit the order in which
    [complementary] passes its lengths, which is why [cm_det] places each
    length on the edge it measures. *)
Remark face_first_differs :
  cm_det_face_first (fst (complementary page_up)) = - (3 / 4) /\
  cm_det_face_first (snd (complementary page_up)) = 45 / 4.
Proof.
  unfold cm_det_face_first, complementary. cbn [fst snd a b c d e f].
  rewrite !determinant_cayley_menger.
  destruct rhomb_edges_sqr as [H00 [H10 [H01 H11]]].
  rewrite H00, H10, H01, H11, spine_length_sqr, tip_page_up.
  rewrite !Edge_length_sqr. book_coords.
  pose proof sqrt2_half_sqr as Hhalf.
  set (s := sqrt 2 / 2) in *. clearbody s.
  replace ((s - 0) ^ 2) with (s ^ 2) by ring.
  replace ((- s - 0) ^ 2) with (s ^ 2) by ring.
  rewrite Hhalf. split; field.
Qed.

(** ** The inadvertent tetrahedron *)

Lemma inadvertent_unfold (page : Page) :
  inadvertent page =
  if Rlt_dec (radicand1 page) 0 then inl ValueError
  else if Rlt_dec (radicand2 page) 0 then inl ValueError
       else inr (inadvertent_vertices page).
Proof.
  unfold inadvertent, math_sqrt, radicand2, radicand1, P_len, Q_len.
  destruct (Rlt_dec _ 0) as [H1 | H1]; cbn [bind raise ret]; [reflexivity |].
  destruct (Rlt_dec _ 0) as [H2 | H2]; reflexivity.
Qed.

Lemma inadvertent_raises_iff (page : Page) :
  inadvertent page = inl ValueError <->
  radicand1 page < 0 \/ radicand2 page < 0.
Proof.
  rewrite inadvertent_unfold.
  destruct (Rlt_dec (radicand1 page) 0) as [H1 | H1];
    [ split; [left; exact H1 | reflexivity] |].
  destruct (Rlt_dec (radicand2 page) 0) as [H2 | H2];
    [ split; [right; exact H2 | reflexivity] |].
  split; [discriminate | intros [H | H]; contradiction].
Qed.

Lemma inadvertent_returns_iff (page : Page)
      (pts : Vector * Vector * Vector * Vector) :
  inadvertent page = inr pts <->
  0 <= radicand1 page /\ 0 <= radicand2 page /\ pts = inadvertent_vertices page.
Proof.
  rewrite inadvertent_unfold.
  destruct (Rlt_dec (radicand1 page) 0) as [H1 | H1].
  { split; [discriminate | intros [H _]; lra]. }
  destruct (Rlt_dec (radicand2 page) 0) as [H2 | H2].
  { split; [discriminate | intros [_ [H _]]; lra]. }
  split.
  - intros H. injection H as <-. repeat split; lra.
  - intros [_ [_ ->]]. reflexivity.
Qed.

(** The distances from a tip on the arc to the two ends of the axis. *)
Lemma arc_distances (page : Page) :
  on_arc (tip page) ->
  P_len page ^ 2 = 2 + 2 * vx (tip page) /\
  Q_len page ^ 2 = 2 - 2 * vx (tip page).
Proof.
  intros [Hy Hxz]. unfold P_len, Q_len. rewrite !Edge_length_sqr.
  book_coords. rewrite Hy. split; nra.
Qed.

Lemma arc_radicands (page : Page) :
  on_arc (tip page) ->
  radicand1 page = 1 - vx (tip page) / 2 /\ 0 < radicand1 page /\
  radicand2 page = / 2.
Proof.
  intros Harc. destruct (arc_distances page Harc) as [HP HQ].
  destruct Harc as [_ Hxz].
  assert (H1 : radicand1 page = 1 - vx (tip page) / 2).
  { unfold radicand1. rewrite rhomb_length_sqr.
    replace ((P_len page / 2) ^ 2) with (P_len page ^ 2 / 4) by field.
    rewrite HP. field. }
  assert (Hpos : 0 < radicand1 page).
  { rewrite H1. pose proof (pow2_ge_0 (vz (tip page))). nra. }
  repeat split; [exact H1 | exact Hpos |].
  unfold radicand2. rewrite <- Rsqr_pow2, Rsqr_sqrt by lra.
  replace ((Q_len page / 2) ^ 2) with (Q_len page ^ 2 / 4) by field.
  rewrite H1, HQ. field.
Qed.

Lemma inadvertent_on_arc (page : Page) :
  on_arc (tip page) -> inadvertent page = inr (inadvertent_vertices page).
Proof.
  intros Harc. destruct (arc_radicands page Harc) as [_ [H1 H2]].
  apply inadvertent_returns_iff. repeat split; lra.
Qed.

(** C7.  For the fixed book geometry ([axis.length = 2],
    [rhomb_length ** 2 = 3/2]) and every page, however driven, the squared
    distances from the tip to [C0] and [C1] add up to [axis.length ** 2 = 4];
    the first radicand of [inadvertent] is positive, the second is
    [rhomb_length ** 2 - 1 = 1/2], and [inadvertent] returns its four
    points. *)
Theorem inadvertent_always_succeeds (th : R) (facing : bool) (steps : list R) :
  let page := sweep (Page_init th facing) steps in
  Edge_length axis = 2
  /\ rhomb_length ^ 2 = 3 / 2
  /\ Edge_length (Edge_of (tip page) C0) ^ 2
     + Edge_length (Edge_of (tip page) C1) ^ 2 = Edge_length axis ^ 2
  /\ Edge_length axis ^ 2 = 4
  /\ 0 < radicand1 page
  /\ radicand2 page = rhomb_length ^ 2 - 1
  /\ radicand2 page = / 2
  /\ inadvertent page = inr (inadvertent_vertices page).
Proof.
  cbv zeta. set (page := sweep (Page_init th facing) steps).
  pose proof (sweep_on_arc th facing steps) as Harc. fold page in Harc.
  destruct (arc_distances page Harc) as [HP HQ].
  destruct (arc_radicands page Harc) as [_ [H1 H2]].
  unfold P_len, Q_len in HP, HQ.
  rewrite axis_length, rhomb_length_sqr, HP, HQ, H2.
  repeat split; try lra.
  apply inadvertent_on_arc, Harc.
Qed.

(** C3, as amended.  [inadvertent] raises ([math.sqrt]'s [ValueError], an
    ordinary exception the caller can catch) exactly when one of its two
    radicands is negative, and otherwise returns its four points; for the
    fixed book geometry no page built by [Page(angle, up)] and driven by
    [delta_angle] makes it raise. *)
Theorem inadvertent_raises_exactly :
  (forall page : Page,
      (inadvertent page = inl ValueError <->
       radicand1 page < 0 \/ radicand2 page < 0)
      /\ (inadvertent page = inl ValueError
          \/ inadvertent page = inr (inadvertent_vertices page)))
  /\ (forall (th : R) (facing : bool) (steps : list R),
         inadvertent (sweep (Page_init th facing) steps)
         = inr (inadvertent_vertices (sweep (Page_init th facing) steps))).
Proof.
  split.
  - intros page. split; [apply inadvertent_raises_iff |].
    rewrite inadvertent_unfold.
    destruct (Rlt_dec (radicand1 page) 0); [left; reflexivity |].
    destruct (Rlt_dec (radicand2 page) 0); [left | right]; reflexivity.
  - intros th facing steps. apply inadvertent_on_arc, sweep_on_arc.
Qed.

(** The error path of [inadvertent] is real: a page object whose tip was
    put at [(3, 0, 0)], off the arc, makes the first square root fail. *)
Lemma inadvertent_raises_exactly_witness :
  inadvertent (mkPage 0 true (mkVector 3 0 0)) = inl ValueError.
Proof.
  apply (proj1 (proj1 inadvertent_raises_exactly
                      (mkPage 0 true (mkVector 3 0 0)))).
  left. unfold radicand1, P_len.
  rewrite rhomb_length_sqr.
  replace ((Edge_length (Edge_of (tip (mkPage 0 true (mkVector 3 0 0))) C1) / 2) ^ 2)
    with (Edge_length (Edge_of (tip (mkPage 0 true (mkVector 3 0 0))) C1) ^ 2 / 4)
    by field.
  rewrite Edge_length_sqr. book_coords. cbn [tip vx vy vz]. lra.
Defined.

(** C3 as stated fails: no angle and no facing makes [inadvertent] raise. *)
Lemma inadvertent_no_failing_angle :
  ~ (exists (th : R) (facing : bool) (err : exn),
        inadvertent (Page_init th facing) = inl err).
Proof.
  intros [th [facing [err H]]].
  rewrite (inadvertent_on_arc _ (Page_init_on_arc th facing)) in H.
  discriminate H.
Qed.

(** C4.  When [inadvertent] returns [P0, P1, Q0, Q1]: [P0-P1] is as long as
    tip-[C1], [Q0-Q1] as long as tip-[C0], the two segments are
    perpendicular, and the other four distances are [rhomb_length]. *)
Theorem inadvertent_distances (page : Page) (P0 P1 Q0 Q1 : Vector)
        (Hret : inadvertent page = inr (P0, P1, Q0, Q1)) :
  Edge_length (Edge_of P0 P1) = Edge_length (Edge_of (tip page) C1)
  /\ Edge_length (Edge_of Q0 Q1) = Edge_length (Edge_of (tip page) C0)
  /\ dot (sub P1 P0) (sub Q1 Q0) = 0
  /\ Edge_length (Edge_of P0 Q0) = rhomb_length
  /\ Edge_length (Edge_of P0 Q1) = rhomb_length
  /\ Edge_length (Edge_of P1 Q0) = rhomb_length
  /\ Edge_length (Edge_of P1 Q1) = rhomb_length.
Proof.
  apply inadvertent_returns_iff in Hret. destruct Hret as [H1 [H2 Hpts]].
  unfold inadvertent_vertices in Hpts. injection Hpts as -> -> -> ->.
  fold (P_len page) (Q_len page).
  assert (Hx : sqrt (radicand2 page) ^ 2
               = rhomb_length ^ 2 - (P_len page / 2) ^ 2 - (Q_len page / 2) ^ 2).
  { rewrite <- (Rsqr_pow2 (sqrt (radicand2 page))), Rsqr_sqrt by exact H2.
    unfold radicand2.
    rewrite <- (Rsqr_pow2 (sqrt (radicand1 page))), Rsqr_sqrt by exact H1.
    reflexivity. }
  pose proof (Edge_length_nonneg (Edge_of (tip page) C1)) as HP.
  pose proof (Edge_length_nonneg (Edge_of (tip page) C0)) as HQ.
  pose proof (Edge_length_nonneg S0C1) as Hrh.
  fold (P_len page) in HP. fold (Q_len page) in HQ. fold rhomb_length in Hrh.
  set (x := sqrt (radicand2 page)) in *. clearbody x.
  set (P := P_len page) in *. set (Q := Q_len page) in *.
  set (rh := rhomb_length) in *. clearbody P Q rh.
  repeat split;
    try (apply sqr_inj_nonneg; [apply Edge_length_nonneg | assumption |];
         rewrite Edge_length_sqr);
    unfold Edge_of, dot, sub, add; cbn [v0 v1 vx vy vz]; nra.
Qed.

Lemma inadvertent_distances_witness :
  let '(P0, P1, Q0, Q1) := inadvertent_vertices page_up in
  inadvertent page_up = inr (P0, P1, Q0, Q1)
  /\ Edge_length (Edge_of P0 P1) = Edge_length (Edge_of (tip page_up) C1)
  /\ Edge_length (Edge_of Q0 Q1) = Edge_length (Edge_of (tip page_up) C0)
  /\ dot (sub P1 P0) (sub Q1 Q0) = 0
  /\ Edge_length (Edge_of P0 Q0) = rhomb_length
  /\ Edge_length (Edge_of P0 Q1) = rhomb_length
  /\ Edge_length (Edge_of P1 Q0) = rhomb_length
  /\ Edge_length (Edge_of P1 Q1) = rhomb_length.
Proof.
  pose proof (inadvertent_on_arc page_up (Page_init_on_arc 0 true)) as Hret.
  destruct (inadvertent_vertices page_up) as [[[P0 P1] Q0] Q1].
  split; [exact Hret | exact (inadvertent_distances page_up P0 P1 Q0 Q1 Hret)].
Defined.

(** * Further properties *)

(** ** The vector algebra of [stickworks.py] *)

Lemma length_le_of_sqr (u v : R) : 0 <= v -> u ^ 2 <= v ^ 2 -> u <= v.
Proof.
  intros Hv Huv. apply Rsqr_incr_0_var; [| exact Hv].
  rewrite !Rsqr_pow2. exact Huv.
Qed.

Lemma dot_self (v : Vector) : dot v v = _length v ^ 2.
Proof. rewrite length_sqr. unfold dot. ring. Qed.

Lemma lagrange_identity (u v : Vector) :
  _length (cross u v) ^ 2 + dot u v ^ 2 = _length u ^ 2 * _length v ^ 2.
Proof.
  rewrite !length_sqr. unfold cross, dot. cbn [vx vy vz]. ring.
Qed.

Lemma dot_le_lengths (u v : Vector) : dot u v <= _length u * _length v.
Proof.
  pose proof (length_nonneg u) as Hu. pose proof (length_nonneg v) as Hv.
  apply length_le_of_sqr; [nra |].
  pose proof (lagrange_identity u v) as Hl.
  pose proof (pow2_ge_0 (_length (cross u v))) as Hc.
  nra.
Qed.

Lemma length_add_le (u v : Vector) :
  _length (add u v) <= _length u + _length v.
Proof.
  pose proof (length_nonneg u) as Hu. pose proof (length_nonneg v) as Hv.
  apply length_le_of_sqr; [lra |].
  pose proof (dot_le_lengths u v) as Hd.
  assert (Hexp : _length (add u v) ^ 2
                 = _length u ^ 2 + 2 * dot u v + _length v ^ 2).
  { rewrite !length_sqr. unfold add, dot. cbn [vx vy vz]. ring. }
  rewrite Hexp. nra.
Qed.

(** X1.  Edge lengths obey the triangle inequality: going from [p] to [r]
    directly is never longer than going through [q]. *)
Theorem Edge_length_triangle (p q r : Vector) (c1 c2 c3 : option rgb) :
  Edge_length (mkEdge p r c1)
  <= Edge_length (mkEdge p q c2) + Edge_length (mkEdge q r c3).
Proof.
  unfold Edge_length. cbn [v0 v1].
  replace (sub r p) with (add (sub q p) (sub r q)).
  - apply length_add_le.
  - unfold add, sub. cbn [vx vy vz]. f_equal; ring.
Qed.

(** X2.  An edge has length 0 only when its two endpoints coincide, and a
    vector has length 0 only when it is the zero vector. *)
Theorem length_zero_iff (p q v : Vector) (col : option rgb) :
  (_length v = 0 <-> v = mkVector 0 0 0)
  /\ (Edge_length (mkEdge p q col) = 0 <-> p = q).
Proof.
  assert (Hv : forall w, _length w = 0 <-> w = mkVector 0 0 0).
  { intros w. split.
    - intros H. pose proof (length_sqr w) as Hs. rewrite H in Hs.
      pose proof (pow2_ge_0 (vx w)). pose proof (pow2_ge_0 (vy w)).
      pose proof (pow2_ge_0 (vz w)).
      destruct w as [x y z]. cbn [vx vy vz] in *.
      f_equal; nra.
    - intros ->. apply sqr_inj_nonneg; [apply length_nonneg | lra |].
      rewrite length_sqr. cbn [vx vy vz]. ring. }
  split; [apply Hv |].
  unfold Edge_length. cbn [v0 v1]. rewrite Hv.
  destruct p as [px py pz], q as [qx qy qz]. unfold sub. cbn [vx vy vz].
  split.
  - intros H. injection H as Hx Hy Hz. f_equal; lra.
  - intros H. injection H as -> -> ->. f_equal; ring.
Qed.

Lemma length_zero_iff_witness :
  Edge_length (mkEdge C0 C0 None) = 0.
Proof.
  apply (proj2 (proj2 (length_zero_iff C0 C0 C0 None))). reflexivity.
Defined.

Lemma length_neg (v : Vector) : _length (neg v) = _length v.
Proof.
  apply sqr_inj_nonneg; try apply length_nonneg.
  rewrite !length_sqr. unfold neg. cbn [vx vy vz]. ring.
Qed.

(** X3.  Scaling a vector, from either side, scales its length by the
    absolute value of the factor; negating it keeps the length, and is the
    scaling by -1. *)
Theorem length_mul (v : Vector) (k : R) :
  _length (mul v k) = Rabs k * _length v
  /\ _length (neg v) = _length v
  /\ neg v = mul v (- 1).
Proof.
  pose proof (length_nonneg v) as Hv. pose proof (Rabs_pos k) as Hk.
  split; [| split].
  - apply sqr_inj_nonneg; [apply length_nonneg | nra |].
    rewrite Rpow_mult_distr, pow2_abs, !length_sqr.
    unfold mul. cbn [vx vy vz]. ring.
  - apply length_neg.
  - unfold neg, mul. f_equal; ring.
Qed.

(** X4.  The cross product is perpendicular to both of its operands,
    changes sign when they are exchanged, and its length satisfies
    Lagrange's identity with the dot product. *)
Theorem cross_orthogonal (u v : Vector) :
  dot u (cross u v) = 0
  /\ dot v (cross u v) = 0
  /\ cross v u = neg (cross u v)
  /\ _length (cross u v) ^ 2 + dot u v ^ 2 = _length u ^ 2 * _length v ^ 2.
Proof.
  repeat split.
  - unfold dot, cross. cbn [vx vy vz]. ring.
  - unfold dot, cross. cbn [vx vy vz]. ring.
  - unfold cross, neg. cbn [vx vy vz]. f_equal; ring.
  - apply lagrange_identity.
Qed.

(** X5.  Cauchy-Schwarz: the dot product of two vectors is at most the
    product of their lengths in absolute value, and the dot product of a
    vector with itself is the square of its length. *)
Theorem dot_cauchy_schwarz (u v : Vector) :
  Rabs (dot u v) <= _length u * _length v
  /\ dot v v = _length v ^ 2.
Proof.
  split; [| apply dot_self].
  apply Rabs_le. split.
  - pose proof (dot_le_lengths (neg u) v) as H.
    rewrite length_neg in H.
    replace (dot (neg u) v) with (- dot u v) in H
      by (unfold dot, neg; cbn [vx vy vz]; ring).
    lra.
  - apply dot_le_lengths.
Qed.

(** X6.  Vectors form a commutative group under [+] and unary [-], and
    [-] between two vectors is the inverse of [+]: addition and subtraction
    undo each other, subtraction is adding the negation, addition commutes
    and associates, and negating twice gives the vector back. *)
Theorem add_sub_round_trip (u v w : Vector) :
  sub (add u v) v = u
  /\ add (sub u v) v = u
  /\ sub u v = add u (neg v)
  /\ add u v = add v u
  /\ add (add u v) w = add u (add v w)
  /\ neg (neg u) = u
  /\ sub u u = mkVector 0 0 0.
Proof.
  destruct u as [ux uy uz], v as [wx wy wz], w as [tx ty tz].
  unfold add, sub, neg. cbn [vx vy vz].
  repeat split; f_equal; ring.
Qed.

(** ** The page and the loops that drive it *)

Lemma radians_add (u v : R) : radians (u + v) = radians u + radians v.
Proof. unfold radians. ring. Qed.

Lemma radians_180 : radians 180 = PI.
Proof. unfold radians. field. Qed.

Lemma radians_360 : radians 360 = 2 * INR 1 * PI.
Proof. unfold radians. cbn [INR]. field. Qed.

(** X7.  A page facing down is the page facing up turned by half a turn:
    its tip is the opposite of the tip of the upward page at the same angle,
    which is the tip of the upward page 180 degrees further. *)
Theorem facing_down_is_half_turn (th : R) :
  tip (Page_init th false) = neg (tip (Page_init th true))
  /\ tip (Page_init th false) = tip (Page_init (th + 180) true).
Proof.
  rewrite !(tip_Page_init _ _ (mkVector 0 0 0)), !getVector_coords.
  cbn [up angle]. rewrite radians_add, radians_180, neg_cos, neg_sin.
  unfold neg. cbn [vx vy vz]. split; f_equal; ring.
Qed.

(** X8.  A full turn changes the angle but not the tip: after
    [delta_angle(360)] the tip is where it was. *)
Theorem delta_angle_full_turn (th : R) (facing : bool) (steps : list R) :
  let page := sweep (Page_init th facing) steps in
  tip (delta_angle page 360) = tip page
  /\ angle (delta_angle page 360) = angle page + 360.
Proof.
  cbv zeta. split; [| reflexivity].
  destruct (sweep_ok facing steps _ (Page_init_ok th facing)) as [Htip _].
  rewrite Htip. unfold delta_angle, set_tip. cbn [tip].
  rewrite !getVector_coords. cbn [up angle].
  rewrite radians_add, radians_360, cos_period, sin_period. reflexivity.
Qed.

Lemma sweep_app (s1 s2 : list R) (page : Page) :
  sweep page (s1 ++ s2) = sweep (sweep page s1) s2.
Proof. unfold sweep. apply fold_left_app. Qed.

Lemma delta_angle_Page_init (th deg : R) (facing : bool) :
  delta_angle (Page_init th facing) deg = Page_init (th + deg) facing.
Proof. reflexivity. Qed.

Lemma sweep_Page_init (steps : list R) :
  forall (th : R) (facing : bool),
    sweep (Page_init th facing) steps
    = Page_init (th + total_angle steps) facing.
Proof.
  unfold total_angle.
  induction steps as [| deg steps IH]; intros th facing;
    cbn [sweep fold_left fold_right].
  - rewrite Rplus_0_r. reflexivity.
  - rewrite delta_angle_Page_init.
    change (fold_left delta_angle steps (Page_init (th + deg) facing))
      with (sweep (Page_init (th + deg) facing) steps).
    rewrite IH, Rplus_assoc. reflexivity.
Qed.

Lemma total_angle_app (s1 s2 : list R) :
  total_angle (s1 ++ s2) = total_angle s1 + total_angle s2.
Proof.
  unfold total_angle. induction s1 as [| h s1 IH]; cbn [app fold_right].
  - ring.
  - rewrite IH. ring.
Qed.

Lemma total_angle_repeat (deg : R) (n : nat) :
  total_angle (repeat deg n) = INR n * deg.
Proof.
  unfold total_angle. induction n as [| n IH].
  - cbn. ring.
  - cbn [repeat fold_right]. rewrite IH, S_INR. ring.
Qed.

Lemma total_angle_opp (steps : list R) :
  total_angle (map Ropp steps) = - total_angle steps.
Proof.
  unfold total_angle. induction steps as [| h steps IH]; cbn [map fold_right].
  - ring.
  - rewrite IH. ring.
Qed.

Lemma total_angle_concat_repeat (pass : list R) (n : nat) :
  total_angle (concat (repeat pass n)) = INR n * total_angle pass.
Proof.
  induction n as [| n IH].
  - cbn. ring.
  - cbn [repeat concat]. rewrite total_angle_app, IH, S_INR. ring.
Qed.

(** X9.  Only the sum of the increments matters: a page driven through any
    sequence of [delta_angle] calls is the page built directly at the
    initial angle plus that sum, and splitting a sequence in two is driving
    twice. *)
Theorem sweep_is_total_angle (th : R) (facing : bool) (s1 s2 : list R) :
  sweep (Page_init th facing) s1 = Page_init (th + total_angle s1) facing
  /\ sweep (Page_init th facing) (s1 ++ s2)
     = sweep (sweep (Page_init th facing) s1) s2
  /\ (total_angle s1 = total_angle s2 ->
      sweep (Page_init th facing) s1 = sweep (Page_init th facing) s2).
Proof.
  split; [apply sweep_Page_init |]. split; [apply sweep_app |].
  intros Hsum. rewrite !sweep_Page_init, Hsum. reflexivity.
Qed.

Lemma sweep_is_total_angle_witness :
  sweep (Page_init 0 true) [1; 1] = sweep (Page_init 0 true) [2].
Proof.
  apply (proj2 (proj2 (sweep_is_total_angle 0 true [1; 1] [2]))).
  unfold total_angle. cbn [fold_right]. ring.
Defined.

(** X10.  Driving a page forth and then back by the opposite increments
    returns it to the state it started from; in particular each pass of
    [page_loop], and the whole of [page_loop], leaves the page as it found
    it. *)
Theorem page_loop_returns (th : R) (facing : bool) (steps : list R) :
  sweep (Page_init th facing) (steps ++ map Ropp steps) = Page_init th facing
  /\ sweep (Page_init th facing) page_loop_pass = Page_init th facing
  /\ sweep (Page_init th facing) page_loop_steps = Page_init th facing.
Proof.
  assert (Hpass : total_angle page_loop_pass = 0).
  { unfold page_loop_pass. rewrite total_angle_app, !total_angle_repeat. ring. }
  repeat split; rewrite sweep_Page_init; f_equal.
  - rewrite total_angle_app, total_angle_opp. ring.
  - rewrite Hpass. ring.
  - unfold page_loop_steps. rewrite total_angle_concat_repeat, Hpass. ring.
Qed.

(** ** The edges drawn from the tip *)

Lemma arc_spine_distances (t : Vector) :
  on_arc t ->
  Edge_length (mkEdge t S0 None) ^ 2 = 3 / 2
  /\ Edge_length (mkEdge t S1 None) ^ 2 = 3 / 2.
Proof.
  intros [Hy Hxz]. rewrite !Edge_length_sqr. book_coords. rewrite Hy.
  split; with_spine_half.
Qed.

Lemma Edge_length_sym (p q : Vector) (c1 c2 : option rgb) :
  Edge_length (mkEdge p q c1) = Edge_length (mkEdge q p c2).
Proof.
  apply sqr_inj_nonneg; try apply Edge_length_nonneg.
  rewrite !Edge_length_sqr. cbn [v0 v1]. ring.
Qed.

(** X11.  The page is rigid and congruent to the covers: at every angle the
    two edges [s] and [u] that [drawit] draws from the tip to the ends of
    the spine are as long as the four edges of the covers' diamond. *)
Theorem drawit_page_is_rigid (th : R) (facing : bool) (steps : list R) :
  let '(s, t, u, v) := drawit (sweep (Page_init th facing) steps) in
  Edge_length s = rhomb_length /\ Edge_length u = rhomb_length.
Proof.
  unfold drawit.
  destruct (arc_spine_distances _ (sweep_on_arc th facing steps)) as [H0 H1].
  split; (apply sqr_inj_nonneg;
          [apply Edge_length_nonneg | apply Edge_length_nonneg |]);
    rewrite rhomb_length_sqr.
  - rewrite <- H0. reflexivity.
  - rewrite <- H1. reflexivity.
Qed.

(** X12.  The two edges [t] and [v] that [drawit] draws from the tip to the
    ends of the cover axis are perpendicular at every angle, the axis being
    a diameter of the tip's circle.  [drawit2] draws the same four segments
    as [drawit], with the colours of [t] and [v] exchanged: [t] magenta and
    [v] green in [drawit], [t] green and [v] magenta in [drawit2], two
    different colours, and [s] and [u] orange in both. *)
Theorem drawit_axis_edges_perpendicular (th : R) (facing : bool)
        (steps : list R) :
  let page := sweep (Page_init th facing) steps in
  let '(s, t, u, v) := drawit page in
  let '(s2, t2, u2, v2) := drawit2 page in
  dot (sub (v1 t) (v0 t)) (sub (v1 v) (v0 v)) = 0
  /\ (v0 s2, v1 s2, v0 t2, v1 t2) = (v0 s, v1 s, v0 t, v1 t)
  /\ (v0 u2, v1 u2, v0 v2, v1 v2) = (v0 u, v1 u, v0 v, v1 v)
  /\ (color s, color t, color u, color v)
     = (Some orange, Some magenta, Some orange, Some green)
  /\ (color s2, color t2, color u2, color v2)
     = (color s, color v, color u, color t)
  /\ color t <> color v.
Proof.
  cbv zeta. unfold drawit, drawit2. cbn [v0 v1 color].
  destruct (sweep_on_arc th facing steps) as [Hy Hxz].
  split; [| repeat split; try reflexivity].
  - unfold dot. book_coords. rewrite Hy. nra.
  - unfold magenta, green. intros Heq. injection Heq as H1 H2 H3. lra.
Qed.

(** ** The complementary tetrahedra, whatever the tip *)

(** X13.  Wherever the tip is, on the arc or not, the two tetrahedra it
    makes with the covers have opposite triple products, so equal volumes:
    [sqrt(2)] times the height of the tip over the plane of the covers, and
    its opposite. *)
Theorem complementary_triples_opposite (t : Vector) :
  triple t S0 C0 S1 = sqrt 2 * vz t
  /\ triple t S0 C1 S1 = - (sqrt 2 * vz t)
  /\ triple t S0 C0 S1 ^ 2 = triple t S0 C1 S1 ^ 2.
Proof.
  unfold triple. rewrite triple_cover0, triple_cover1.
  repeat split; field.
Qed.

(** X14.  For any page object, even one whose tip was put off the arc, the
    lengths [complementary] passes give both tetrahedra the same
    Cayley-Menger determinant, 16 times the squared height of the tip, and
    so the same computed volume in every unit and at every tolerance. *)
Theorem complementary_equal_for_any_tip (conv : R -> R) (tol : R)
        (u : unit_mode) (page : Page) :
  cm_det (fst (complementary page)) = 16 * vz (tip page) ^ 2
  /\ cm_det (snd (complementary page)) = 16 * vz (tip page) ^ 2
  /\ compute conv tol (fst (complementary page)) u
     = compute conv tol (snd (complementary page)) u.
Proof.
  destruct (cm_det_complementary page) as [H0 H1].
  split; [exact H0 |]. split; [exact H1 | apply compute_complementary].
Qed.

(** ** The inadvertent tetrahedron, continued *)

Lemma inadvertent_triple (page : Page) :
  let '(P0, P1, Q0, Q1) := inadvertent_vertices page in
  triple P0 P1 Q0 Q1
  = P_len page * Q_len page * sqrt (radicand2 page).
Proof.
  unfold inadvertent_vertices, triple, dot, cross, sub, add.
  cbn [vx vy vz]. field.
Qed.

Lemma arc_PQ_sqr (page : Page) :
  on_arc (tip page) ->
  (P_len page * Q_len page * sqrt (radicand2 page)) ^ 2
  = 2 * vz (tip page) ^ 2.
Proof.
  intros Harc. destruct (arc_distances page Harc) as [HP HQ].
  destruct (arc_radicands page Harc) as [_ [_ H2]].
  destruct Harc as [_ Hxz].
  rewrite !Rpow_mult_distr, HP, HQ.
  rewrite <- (Rsqr_pow2 (sqrt _)), Rsqr_sqrt by lra.
  rewrite H2. nra.
Qed.

(** X15.  The inadvertent tetrahedron has the volume of the complementary
    ones: for every page, however driven, the triple product of the four
    points [inadvertent] returns has the same square as the triple products
    of the tip with either cover, namely [2 * sin(radians(angle)) ** 2]. *)
Theorem inadvertent_same_volume (th : R) (facing : bool) (steps : list R) :
  let page := sweep (Page_init th facing) steps in
  exists P0 P1 Q0 Q1 : Vector,
    inadvertent page = inr (P0, P1, Q0, Q1)
    /\ triple P0 P1 Q0 Q1 ^ 2 = triple (tip page) S0 C0 S1 ^ 2
    /\ triple P0 P1 Q0 Q1 ^ 2 = triple (tip page) S0 C1 S1 ^ 2
    /\ triple P0 P1 Q0 Q1 ^ 2 = 2 * sin (radians (angle page)) ^ 2.
Proof.
  cbv zeta. set (page := sweep (Page_init th facing) steps).
  pose proof (sweep_on_arc th facing steps) as Harc. fold page in Harc.
  pose proof (inadvertent_on_arc page Harc) as Hret.
  pose proof (inadvertent_triple page) as Htri.
  destruct (inadvertent_vertices page) as [[[P0 P1] Q0] Q1].
  exists P0, P1, Q0, Q1. split; [exact Hret |].
  rewrite Htri, (arc_PQ_sqr page Harc).
  unfold triple. rewrite triple_cover0, triple_cover1.
  destruct (sweep_ok facing steps _ (Page_init_ok th facing)) as [Htip _].
  fold page in Htip.
  assert (Hz : vz (tip page) ^ 2 = sin (radians (angle page)) ^ 2).
  { rewrite Htip, getVector_coords. destruct (up page); cbn [vz]; ring. }
  rewrite <- Hz.
  pose proof sqrt2_half_sqr as Hhalf.
  set (s := sqrt 2 / 2) in *. clearbody s.
  repeat split; nra.
Qed.

(** X16.  The tetrahedron [T3] that [inadvert_loop] builds from the lengths
    of the six edges of [drawit3] exists for every page, however driven, and
    its Cayley-Menger determinant is that of the two complementary
    tetrahedra, so that its volume is computed to the same number. *)
Theorem inadvert_T3_same_volume (conv : R -> R) (tol : R) (u : unit_mode)
        (th : R) (facing : bool) (steps : list R) :
  let page := sweep (Page_init th facing) steps in
  exists T3 : Tetrahedron,
    inadvert_T3 page = inr T3
    /\ cm_det T3 = cm_det (fst (complementary page))
    /\ cm_det T3 = 16 * sin (radians (angle page)) ^ 2
    /\ compute conv tol T3 u = compute conv tol (fst (complementary page)) u
    /\ compute conv tol T3 u = compute conv tol (snd (complementary page)) u.
Proof.
  cbv zeta. set (page := sweep (Page_init th facing) steps).
  pose proof (sweep_on_arc th facing steps) as Harc. fold page in Harc.
  pose proof (inadvertent_on_arc page Harc) as Hret.
  pose proof (inadvertent_triple page) as Htri.
  pose proof (cm_det_complementary_angle th facing steps) as Hang.
  cbv zeta in Hang. fold page in Hang.
  destruct (cm_det_complementary page) as [H0 _].
  unfold inadvert_T3. rewrite Hret. cbn [bind].
  pose proof (arc_PQ_sqr page Harc) as Hsq.
  destruct (inadvertent_vertices page) as [[[P0 P1] Q0] Q1].
  unfold drawit3. cbn [map Tetrahedron_of_list ret].
  eexists. split; [reflexivity |].
  assert (Hdet : cm_det
                   (mkTetrahedron
                      (Edge_length (mkEdge P0 P1 (Some magenta)))
                      (Edge_length (mkEdge P0 Q0 (Some orange)))
                      (Edge_length (mkEdge P0 Q1 (Some orange)))
                      (Edge_length (mkEdge P1 Q0 (Some orange)))
                      (Edge_length (mkEdge Q0 Q1 (Some green)))
                      (Edge_length (mkEdge P1 Q1 (Some orange))) D)
                 = cm_det (fst (complementary page))).
  { rewrite (Edge_length_sym Q0 Q1 (Some green) None).
    rewrite cm_det_of_points. fold (triple P0 P1 Q0 Q1).
    rewrite Htri, Hsq, H0. ring. }
  split; [exact Hdet |]. split; [rewrite Hdet; exact Hang |].
  assert (Hvol : forall conv' tol' u',
             compute conv' tol'
               (mkTetrahedron
                  (Edge_length (mkEdge P0 P1 (Some magenta)))
                  (Edge_length (mkEdge P0 Q0 (Some orange)))
                  (Edge_length (mkEdge P0 Q1 (Some orange)))
                  (Edge_length (mkEdge P1 Q0 (Some orange)))
                  (Edge_length (mkEdge Q0 Q1 (Some green)))
                  (Edge_length (mkEdge P1 Q1 (Some orange))) D) u'
             = compute conv' tol' (fst (complementary page)) u').
  { intros conv' tol' u'. unfold compute, norm. rewrite Hdet. reflexivity. }
  split; [apply Hvol |]. rewrite <- compute_complementary. apply Hvol.
Qed.

(** X17.  The four points of the inadvertent tetrahedron are centred on the
    origin, and the distance between the midpoints of its two chords does
    not depend on the angle: for every page, however driven, it is the
    square root of 1/2. *)
Theorem inadvertent_centred (th : R) (facing : bool) (steps : list R) :
  let page := sweep (Page_init th facing) steps in
  exists P0 P1 Q0 Q1 : Vector,
    inadvertent page = inr (P0, P1, Q0, Q1)
    /\ add (add P0 P1) (add Q0 Q1) = mkVector 0 0 0
    /\ Edge_length (Edge_of (mul (add P0 P1) (/ 2)) (mul (add Q0 Q1) (/ 2)))
       = sqrt (/ 2).
Proof.
  cbv zeta. set (page := sweep (Page_init th facing) steps).
  pose proof (sweep_on_arc th facing steps) as Harc. fold page in Harc.
  pose proof (inadvertent_on_arc page Harc) as Hret.
  destruct (arc_radicands page Harc) as [_ [_ H2]].
  unfold inadvertent_vertices in Hret. rewrite H2 in Hret.
  eexists _, _, _, _. split; [exact Hret |].
  pose proof (sqrt_pos (/ 2)) as Hx.
  set (x := sqrt (/ 2)) in *. clearbody x.
  split.
  - unfold add. cbn [vx vy vz]. f_equal; field.
  - apply sqr_inj_nonneg; [apply Edge_length_nonneg | exact Hx |].
    rewrite Edge_length_sqr. unfold Edge_of, add, mul. cbn [v0 v1 vx vy vz].
    field.
Qed.

(** ** The volume as a function of the angle *)

(** X18.  In natural units and with no tolerance, the common volume of the
    two complementary tetrahedra is twice the absolute value of the sine of
    the page's angle: it vanishes exactly when the page lies flat on a
    cover. *)
Theorem complementary_volume_sine (conv : R -> R) (th : R) (facing : bool)
        (steps : list R) :
  let page := sweep (Page_init th facing) steps in
  compute conv 0 (fst (complementary page)) NATURAL
  = inr (2 * Rabs (sin (radians (angle page))))
  /\ compute conv 0 (snd (complementary page)) NATURAL
     = inr (2 * Rabs (sin (radians (angle page)))).
Proof.
  cbv zeta. set (page := sweep (Page_init th facing) steps).
  rewrite <- compute_complementary.
  pose proof (cm_det_complementary_angle th facing steps) as Hang.
  cbv zeta in Hang. fold page in Hang.
  set (sn := sin (radians (angle page))) in *.
  assert (H : compute conv 0 (fst (complementary page)) NATURAL
              = inr (2 * Rabs sn)).
  { unfold compute, norm. rewrite Hang.
    pose proof (pow2_ge_0 sn) as Hsq.
    destruct (Rlt_dec (16 * sn ^ 2) (- 0)) as [Hn | _]; [lra |].
    destruct (Rle_dec (16 * sn ^ 2) 0) as [Hz | Hp]; unfold ret; f_equal.
    - assert (Hsn : sn = 0) by nra. rewrite Hsn, Rabs_R0. ring.
    - replace (/ 4 * (16 * sn ^ 2)) with ((2 * Rabs sn) ^ 2)
        by (rewrite Rpow_mult_distr, pow2_abs; field).
      rewrite <- Rsqr_pow2. apply sqrt_Rsqr.
      pose proof (Rabs_pos sn). lra. }
  split; exact H.
Qed.

(** ** Drawing *)

(** X19.  Whatever the edge, built with a colour or without, the cylinder
    [Edge.draw] makes starts at the edge's first endpoint, ends at its
    second, is as long as the edge and has the radius of the class.  An edge
    built with a colour is drawn in it whatever the class colour has become,
    and an edge built without one is drawn in the current class colour.  The
    cylinder [Vector.draw] makes starts at the origin and ends at the
    vector. *)
Theorem draw_joins_endpoints (class_color other_color vec_color : rgb)
        (ed : Edge) (q : Vector) :
  let cy := Edge_draw class_color ed in
  cyl_pos cy = v0 ed
  /\ cylinder_end cy = v1 ed
  /\ _length (cyl_axis cy) = Edge_length ed
  /\ cyl_radius cy = Edge_radius
  /\ cyl_color cy = match color ed with
                    | Some col => col
                    | None => class_color
                    end
  /\ (forall col : rgb,
         Edge_draw class_color (mkEdge (v0 ed) (v1 ed) (Some col))
         = Edge_draw other_color (mkEdge (v0 ed) (v1 ed) (Some col)))
  /\ cyl_pos (Vector_draw q vec_color) = mkVector 0 0 0
  /\ cylinder_end (Vector_draw q vec_color) = q
  /\ cyl_color (Vector_draw q vec_color) = vec_color.
Proof.
  cbv zeta. destruct ed as [p r col].
  unfold Edge_draw, Vector_draw, cylinder_end, Edge_get_color.
  cbn [cyl_pos cyl_axis cyl_color cyl_radius v0 v1 color].
  destruct p as [px py pz], r as [rx ry rz], q as [qx qy qz].
  unfold add, sub. cbn [vx vy vz].
  repeat split; try reflexivity; f_equal; ring.
Qed.

(** ** The plotter *)

Lemma dgen_run_values (step : R) (n : nat) :
  forall (start : R) (k0 : nat),
    dgen_run step n (start + INR k0 * step)
    = (map (fun k => start + INR k * step) (seq k0 n),
       start + INR (k0 + n) * step).
Proof.
  induction n as [| n IH]; intros start k0; cbn [dgen_run seq map].
  - rewrite Nat.add_0_r. reflexivity.
  - unfold dgen_next.
    replace (start + INR k0 * step + step) with (start + INR (S k0) * step)
      by (rewrite S_INR; ring).
    rewrite IH, Nat.add_succ_comm. reflexivity.
Qed.

(** X20.  [dgen(start, step)] yields [start], [start + step],
    [start + 2 * step], ...: its [n] first values are [start + k * step] for
    [k] from 0 to [n - 1], and it is then ready to yield
    [start + n * step]. *)
Theorem dgen_arithmetic (start step : R) (n : nat) :
  dgen_run step n start
  = (map (fun k => start + INR k * step) (seq 0 n), start + INR n * step).
Proof.
  pose proof (dgen_run_values step n start 0) as H.
  cbn [INR] in H. rewrite Rmult_0_l, Rplus_0_r in H. exact H.
Qed.

Section plotter_properties.

Variable D : Type.
Variable next_domain : D -> R * D.
Variable f : R -> R.

Lemma xyplotter_next_suspended (g : plotter D) :
  exists dom x y,
    snd (xyplotter_next D next_domain f g) = Suspended D dom x y
    /\ v1 (fst (xyplotter_next D next_domain f g)) = mkVector x y 0.
Proof.
  unfold xyplotter_next.
  destruct g as [dom | dom x0 y0].
  - destruct (next_domain dom) as [x0 dom'].
    destruct (next_domain dom') as [x1 dom'']. cbn. eauto.
  - destruct (next_domain dom) as [x1 dom']. cbn. eauto.
Qed.

Lemma xyplotter_next_from_suspended (dom : D) (x0 y0 : R) :
  v0 (fst (xyplotter_next D next_domain f (Suspended D dom x0 y0)))
  = mkVector x0 y0 0.
Proof.
  unfold xyplotter_next. destruct (next_domain dom) as [x1 dom']. reflexivity.
Qed.

Lemma xyplotter_run_connected (n : nat) :
  forall g : plotter D, connected (xyplotter_run D next_domain f n g).
Proof.
  induction n as [| n IH]; intros g; cbn [xyplotter_run]; [exact I |].
  destruct (xyplotter_next_suspended g) as [dom [x [y [Hg He]]]].
  destruct (xyplotter_next D next_domain f g) as [e g'].
  cbn [fst snd] in Hg, He. subst g'.
  specialize (IH (Suspended D dom x y)).
  destruct n as [| n]; cbn [xyplotter_run connected] in *; [exact I |].
  pose proof (xyplotter_next_from_suspended dom x y) as H0.
  destruct (xyplotter_next D next_domain f (Suspended D dom x y)) as [e2 g2].
  cbn [fst] in H0. split; [rewrite He, H0; reflexivity | exact IH].
Qed.

Lemma xyplotter_run_flat (n : nat) :
  forall g : plotter D,
    Forall (fun ed => vz (v0 ed) = 0 /\ vz (v1 ed) = 0)
           (xyplotter_run D next_domain f n g).
Proof.
  induction n as [| n IH]; intros g; cbn [xyplotter_run]; [constructor |].
  pose proof (IH (snd (xyplotter_next D next_domain f g))) as Hrest.
  assert (He : vz (v0 (fst (xyplotter_next D next_domain f g))) = 0
               /\ vz (v1 (fst (xyplotter_next D next_domain f g))) = 0).
  { unfold xyplotter_next. destruct g as [dom | dom x0 y0].
    - destruct (next_domain dom) as [x0 dom'].
      destruct (next_domain dom') as [x1 dom'']. split; reflexivity.
    - destruct (next_domain dom) as [x1 dom']. split; reflexivity. }
  destruct (xyplotter_next D next_domain f g) as [e g'].
  constructor; assumption.
Qed.

Lemma xyplotter_run_length (n : nat) :
  forall g : plotter D, length (xyplotter_run D next_domain f n g) = n.
Proof.
  induction n as [| n IH]; intros g; cbn [xyplotter_run]; [reflexivity |].
  destruct (xyplotter_next D next_domain f g) as [e g'].
  cbn [length]. rewrite IH. reflexivity.
Qed.

End plotter_properties.

(** X21.  Whatever the domain and the function, each [next] on an
    [xyplotter] draws one edge, every edge after the first starts where the
    one before it ended, and all of them lie in the plane [z = 0]. *)
Theorem xyplotter_traces_connected_edges (D : Type)
        (next_domain : D -> R * D) (f : R -> R) (n : nat) (domain : D) :
  let edges := xyplotter_run D next_domain f n (xyplotter D domain) in
  length edges = n
  /\ connected edges
  /\ Forall (fun ed => vz (v0 ed) = 0 /\ vz (v1 ed) = 0) edges.
Proof.
  cbv zeta. split; [apply xyplotter_run_length |].
  split; [apply xyplotter_run_connected | apply xyplotter_run_flat].
Qed.

Lemma xyplotter_run_dgen_suspended (f : R -> R) (start step : R) (n : nat) :
  forall k0 : nat,
    xyplotter_run R (dgen_next step) f n
      (Suspended R (start + INR (S k0) * step)
                 (start + INR k0 * step) (f (start + INR k0 * step)))
    = map (fun k =>
             Edge_of (mkVector (start + INR k * step)
                               (f (start + INR k * step)) 0)
                     (mkVector (start + INR (S k) * step)
                               (f (start + INR (S k) * step)) 0))
          (seq k0 n).
Proof.
  induction n as [| n IH]; intros k0; cbn [xyplotter_run seq map];
    [reflexivity |].
  unfold xyplotter_next, dgen_next.
  replace (start + INR (S k0) * step + step)
    with (start + INR (S (S k0)) * step) by (rewrite !S_INR; ring).
  rewrite IH. reflexivity.
Qed.

(** X22.  On the domain [dgen(start, step)] the [k]-th edge [xyplotter]
    draws joins the points of the graph of [f] at [start + k * step] and at
    [start + (k + 1) * step]. *)
Theorem xyplotter_on_dgen (f : R -> R) (start step : R) (n : nat) :
  xyplotter_run R (dgen_next step) f n (xyplotter R start)
  = map (fun k =>
           Edge_of (mkVector (start + INR k * step)
                             (f (start + INR k * step)) 0)
                   (mkVector (start + INR (S k) * step)
                             (f (start + INR (S k) * step)) 0))
        (seq 0 n).
Proof.
  destruct n as [| n]; [reflexivity |].
  cbn [xyplotter_run seq map]. unfold xyplotter, xyplotter_next, dgen_next.
  pose proof (xyplotter_run_dgen_suspended f start step n 1) as H.
  replace (start + INR 2 * step) with (start + step + step) in H
    by (cbn [INR]; ring).
  replace (start + INR 1 * step) with (start + step) in H
    by (cbn [INR]; ring).
  change (fun start0 : R => (start0, start0 + step)) with (dgen_next step).
  rewrite H.
  replace (start + INR 0 * step) with start by (cbn [INR]; ring).
  replace (start + INR 1 * step) with (start + step) by (cbn [INR]; ring).
  reflexivity.
Qed.

(** ** The calculus demo *)

(** X23.  [snakeywakey] crosses the x axis at 3, 2, -3 and -7, and nowhere
    else. *)
Theorem snakeywakey_zeros (x : R) :
  snakeywakey x = 0 <-> x = 3 \/ x = 2 \/ x = - 3 \/ x = - 7.
Proof.
  unfold snakeywakey. split.
  - intros H.
    assert (H4 : (x - 3) * ((x - 2) * ((x + 3) * (x + 7))) = 0) by lra.
    apply Rmult_integral in H4. destruct H4 as [H4 | H4]; [left; lra |].
    apply Rmult_integral in H4. destruct H4 as [H4 | H4]; [right; left; lra |].
    apply Rmult_integral in H4.
    destruct H4 as [H4 | H4]; [right; right; left | right; right; right]; lra.
  - intros [-> | [-> | [-> | ->]]]; field.
Qed.

Lemma snakeywakey_zeros_witness : snakeywakey (- 7) = 0.
Proof.
  apply (proj2 (snakeywakey_zeros (- 7))). right. right. right. reflexivity.
Defined.

(** X24.  On a polynomial of degree two, [a*x**2 + b*x + c], the function
    returned by [deriv] with a step [h] other than 0 is the true derivative
    [2*a*x + b] plus the error [a*h], so it is exact on straight lines; with
    [h = 0] it raises [ZeroDivisionError] at every [x]. *)
Theorem deriv_quadratic (a b c h x : R) (Hh : h <> 0) :
  deriv (never_raises (fun t => a * t ^ 2 + b * t + c)) h x
  = inr (2 * a * x + b + a * h)
  /\ deriv (never_raises (fun t => a * t ^ 2 + b * t + c)) 0 x
     = inl ZeroDivisionError.
Proof.
  unfold deriv, never_raises. split.
  - destruct (Req_dec_T h 0) as [H0 | _]; [contradiction |].
    f_equal. field. exact Hh.
  - destruct (Req_dec_T 0 0) as [_ | Hn]; [reflexivity | contradiction].
Qed.

Lemma deriv_quadratic_witness :
  deriv (never_raises (fun t => 1 * t ^ 2 + 0 * t + 0)) deriv_h 3
  = inr (2 * 1 * 3 + 0 + 1 * deriv_h)
  /\ deriv (never_raises (fun t => 1 * t ^ 2 + 0 * t + 0)) 0 3
     = inl ZeroDivisionError.
Proof.
  apply (deriv_quadratic 1 0 0 deriv_h 3). unfold deriv_h. lra.
Defined.

(** X25.  Applying [deriv] twice with the same step, as [testmemore] does
    for the second derivative, gives the second difference quotient
    [(f(x + 2h) - 2 f(x + h) + f(x)) / h**2]. *)
Theorem deriv_twice (f : R -> R) (h x : R) (Hh : h <> 0) :
  deriv (deriv (never_raises f) h) h x
  = inr ((f (x + 2 * h) - 2 * f (x + h) + f x) / h ^ 2).
Proof.
  unfold deriv, never_raises.
  destruct (Req_dec_T h 0) as [H0 | _]; [contradiction |].
  f_equal. replace (x + h + h) with (x + 2 * h) by ring.
  field. exact Hh.
Qed.

Lemma deriv_twice_witness :
  deriv (deriv (never_raises snakeywakey) deriv_h) deriv_h 0
  = inr ((snakeywakey (0 + 2 * deriv_h) - 2 * snakeywakey (0 + deriv_h)
          + snakeywakey 0) / deriv_h ^ 2).
Proof.
  apply (deriv_twice snakeywakey deriv_h 0). unfold deriv_h. lra.
Defined.
